(** * Vapour-liquid equilibrium of heptane/octane: the core of [Ant.py]

    The script evaluates the Antoine correlation, solves the Raoult
    pressure balance for the bubble-point temperature with SciPy's
    [fsolve], and sweeps 21 liquid compositions.

    Numbers.  Binary64 values are idealised as real numbers: arithmetic
    is exact, and rounding, overflow and underflow of the machine format
    are outside this development.  What is kept is the behaviour of the
    two float types of the program at a zero divisor: a Python [float]
    raises [ZeroDivisionError], a NumPy [np.float64] carries on with
    [inf] or [nan].  A divisor of the program is always a sum [C + T],
    whose zero is [+0.0], so the sign of zero is not tracked.

    The root-finder.  [fsolve] is library code; it enters as a parameter
    of the program, and what a statement needs of it is a hypothesis of
    that statement: [converged] (the returned temperature is a zero of
    the residual) or [within_tolerance] (the residual there is within
    1e-6 mmHg of zero). *)

From Stdlib Require Import Reals Lra Lia ZArith List Bool String Sorted.
From Stdlib Require Import Ranalysis5 ClassicalEpsilon.
Import ListNotations.
Open Scope R_scope.

(** ** NumPy scalars *)

Module Np.

Inductive float64 : Type :=
| Fin (r : R)
| PInf
| NInf
| NaN.

Definition sign_inf (r : R) : float64 :=
  if Rlt_dec 0 r then PInf else if Rlt_dec r 0 then NInf else NaN.

Definition neg (a : float64) : float64 :=
  match a with
  | Fin r => Fin (- r)
  | PInf => NInf
  | NInf => PInf
  | NaN => NaN
  end.

Definition add (a b : float64) : float64 :=
  match a, b with
  | NaN, _ | _, NaN => NaN
  | Fin x, Fin y => Fin (x + y)
  | PInf, NInf | NInf, PInf => NaN
  | PInf, _ | _, PInf => PInf
  | NInf, _ | _, NInf => NInf
  end.

Definition sub (a b : float64) : float64 := add a (neg b).

Definition mul (a b : float64) : float64 :=
  match a, b with
  | NaN, _ | _, NaN => NaN
  | Fin x, Fin y => Fin (x * y)
  | Fin x, PInf | PInf, Fin x => sign_inf x
  | Fin x, NInf | NInf, Fin x => sign_inf (- x)
  | PInf, PInf | NInf, NInf => PInf
  | PInf, NInf | NInf, PInf => NInf
  end.

(** [x / 0.0] is [inf], [-inf] or [nan] by the sign of [x] (with a
    RuntimeWarning, no exception). *)
Definition div (a b : float64) : float64 :=
  match a, b with
  | NaN, _ | _, NaN => NaN
  | Fin x, Fin y => if Req_dec_T y 0 then sign_inf x else Fin (x / y)
  | Fin _, (PInf | NInf) => Fin 0
  | PInf, Fin y => if Rlt_dec y 0 then NInf else PInf
  | NInf, Fin y => if Rlt_dec y 0 then PInf else NInf
  | (PInf | NInf), (PInf | NInf) => NaN
  end.

(** [10 ** e]: [exp (e * ln 10)] on a finite exponent. *)
Definition pow10 (e : float64) : float64 :=
  match e with
  | Fin r => Fin (exp (r * ln 10))
  | PInf => PInf
  | NInf => Fin 0
  | NaN => NaN
  end.

End Np.

Import Np.

(** ** Values and outcomes of the script *)

(** The temperature handed to [antoine_eq] is a Python [float] when the
    function is called directly and a NumPy value when it comes from
    [fsolve] (inside the residual, and in the sweep as [fsolve(...)[0]]). *)
Inductive value : Type :=
| PyFloat (r : R)
| NpFloat (v : float64).

Inductive outcome (A : Type) : Type :=
| Ok (a : A)
| ZeroDivisionError.
Arguments Ok {A} a.
Arguments ZeroDivisionError {A}.

(** ** Antoine constants *)

Record constants : Type := Constants { cA : R; cB : R; cC : R }.

Definition heptane : constants := Constants (6893 / 1000) 1260 216.
Definition octane : constants := Constants (69094 / 10000) 1351 217.

Definition antoine_constants : list (string * constants) :=
  [ ("heptane"%string, heptane); ("octane"%string, octane) ].

Fixpoint lookup (k : string) (d : list (string * constants)) : option constants :=
  match d with
  | [] => None
  | (k', c) :: d' => if String.eqb k k' then Some c else lookup k d'
  end.

(** ** Saturation pressure *)

(** The NumPy evaluation of [10**(A - B / (C + T))]. *)
Definition antoine_np (T : float64) (A B C : R) : float64 :=
  pow10 (sub (Fin A) (div (Fin B) (add (Fin C) T))).

(** [def antoine_eq(T, A, B, C): return 10**(A - B / (C + T))] *)
Definition antoine_eq (T : value) (A B C : R) : outcome value :=
  match T with
  | PyFloat t =>
      if Req_dec_T (C + t) 0 then ZeroDivisionError
      else Ok (PyFloat (exp ((A - B / (C + t)) * ln 10)))
  | NpFloat v => Ok (NpFloat (antoine_np v A B C))
  end.


Definition P_total : R := 760.

(** NumPy's coercion of a Python [float] operand. *)
Definition to_np (v : value) : float64 :=
  match v with
  | PyFloat r => Fin r
  | NpFloat a => a
  end.

(** ** Rounding for the display table *)

(** Nearest integer, ties to the even one. *)
Definition rint (r : R) : Z :=
  let f := Int_part r in
  let d := r - IZR f in
  if Rlt_dec d (1 / 2) then f
  else if Rlt_dec (1 / 2) d then (f + 1)%Z
  else if Z.even f then f else (f + 1)%Z.

(** [round(v, n)] on a NumPy scalar. *)
Definition round (v : float64) (n : nat) : float64 :=
  match v with
  | Fin r => Fin (IZR (rint (r * 10 ^ n)) / 10 ^ n)
  | _ => v
  end.

(** ** The sample grid *)

(** [np.linspace(start, stop, num)] with the default [endpoint=True]:
    [arange(num) * step + start] with [step = (stop - start) / (num - 1)],
    the last entry overwritten by [stop]. *)
Definition linspace (start stop : R) (num : nat) : list R :=
  let dv := (num - 1)%nat in
  let delta := stop - start in
  let y := map (fun i : nat => INR i * (delta / INR dv) + start) (seq 0 num) in
  if (1 <? num)%nat then removelast y ++ [stop] else map (fun _ => start) y.

Definition x_vals : list float64 := map Fin (linspace 0 1 21).

(** ** Solver and sweep *)

Definition row : Type := (float64 * float64 * float64)%type.

Record state : Type := State {
  T_vals : list float64;
  y_vals : list float64;
  table_data : list row
}.

Definition init : state := State [] [] [].

Section Program.

(** [scipy.optimize.fsolve], in one dimension: from the residual and the
    initial guess to the entry [[0]] of the array it returns.  Nothing is
    assumed of it here. *)
Variable fsolve : (float64 -> float64) -> float64 -> float64.

(** The module-level configuration. *)
Variables (c_heptane c_octane : constants) (P_tot : R).

(** The residual [func] local to [bubble_point_temp].  [fsolve] calls it on
    an array, so [antoine_eq] takes its NumPy branch. *)
Definition func (x_heptane : float64) (T : float64) : float64 :=
  let P_heptane := antoine_np T (cA c_heptane) (cB c_heptane) (cC c_heptane) in
  let P_octane := antoine_np T (cA c_octane) (cB c_octane) (cC c_octane) in
  let x_octane := sub (Fin 1) x_heptane in
  sub (add (mul x_heptane P_heptane) (mul x_octane P_octane)) (Fin P_tot).

Definition T_guess : float64 := Fin 100.

Definition bubble_point_temp (x_heptane : float64) : float64 :=
  fsolve (func x_heptane) T_guess.

(** One iteration of [for x in x_vals: ...]. *)
Definition body (st : state) (x : float64) : outcome state :=
  let T := bubble_point_temp x in
  match antoine_eq (NpFloat T) (cA c_heptane) (cB c_heptane) (cC c_heptane) with
  | ZeroDivisionError => ZeroDivisionError
  | Ok P_heptane =>
      let y := div (mul x (to_np P_heptane)) (Fin P_tot) in
      Ok (State (T_vals st ++ [T])
                (y_vals st ++ [y])
                (table_data st ++ [(round x 3, round y 3, round T 2)]))
  end.

Fixpoint loop (st : state) (xs : list float64) : outcome state :=
  match xs with
  | [] => Ok st
  | x :: xs' =>
      match body st x with
      | Ok st' => loop st' xs'
      | ZeroDivisionError => ZeroDivisionError
      end
  end.

Definition sweep (xs : list float64) : outcome state := loop init xs.

End Program.

(** The script as it stands: heptane, octane, 760 mmHg, 21 samples. *)
Definition main (fsolve : (float64 -> float64) -> float64 -> float64)
  : outcome state :=
  sweep fsolve heptane octane P_total x_vals.

(** ** Real-valued helpers for the statements *)

(** Saturation pressure as a real function, away from [T = -C]. *)
Definition Psat (c : constants) (t : R) : R :=
  exp ((cA c - cB c / (cC c + t)) * ln 10).

(** The pressure balance on finite data. *)
Definition residual (x t : R) : R :=
  x * Psat heptane t + (1 - x) * Psat octane t - P_total.

Definition log10 (p : R) : R := ln p / ln 10.

(** The temperature at which a pure component boils at pressure [p]. *)
Definition boiling_point (c : constants) (p : R) : R :=
  cB c / (cA c - log10 p) - cC c.

(** The value NumPy gives [antoine_eq] at a finite temperature when
    [B > 0]: at the pole [T = -C] the quotient is [inf], the exponent
    [-inf] and the power [0.0]. *)
Definition Psat_np (c : constants) (t : R) : R :=
  if Req_dec_T (cC c + t) 0 then 0 else Psat c t.

(** The residual on finite data as NumPy evaluates it. *)
Definition residual_np (x t : R) : R :=
  x * Psat_np heptane t + (1 - x) * Psat_np octane t - P_total.

(** ** Reading the sweep *)

Section Readings.

Variable fsolve : (float64 -> float64) -> float64 -> float64.
Variables (c_heptane c_octane : constants) (P_tot : R).

(** The vapour fraction the loop body derives for the sample [x]. *)
Definition y_of (x : float64) : float64 :=
  div (mul x (antoine_np (bubble_point_temp fsolve c_heptane c_octane P_tot x)
                (cA c_heptane) (cB c_heptane) (cC c_heptane)))
      (Fin P_tot).

(** The display row the loop body appends for the sample [x]. *)
Definition row_of (x : float64) : row :=
  (round x 3, round (y_of x) 3,
   round (bubble_point_temp fsolve c_heptane c_octane P_tot x) 2).

End Readings.

(** The root-finder did its job at the sample [x]: the temperature it
    returned is a zero of the residual it was given.  This is an
    assumption on SciPy, which the script never checks. *)
Definition converged (fsolve : (float64 -> float64) -> float64 -> float64)
  (x : float64) : Prop :=
  func heptane octane P_total x
    (bubble_point_temp fsolve heptane octane P_total x) = Fin 0.

(** The tolerance the specification suggests for the residual, in mmHg. *)
Definition tolerance : R := 1 / 1000000.

(** The weaker contract: the residual at the returned temperature is a
    finite number within [tolerance] of zero. *)
Definition within_tolerance (fsolve : (float64 -> float64) -> float64 -> float64)
  (x : float64) : Prop :=
  exists r,
    func heptane octane P_total x
      (bubble_point_temp fsolve heptane octane P_total x) = Fin r /\
    Rabs r <= tolerance.

(** A root-finder that returns a zero of its argument whenever there is
    one.  It instantiates the assumption above. *)
Definition ideal_fsolve (f : float64 -> float64) (guess : float64) : float64 :=
  epsilon (inhabits guess) (fun T => f T = Fin 0).

(** A root-finder that gives up at once and returns its initial guess. *)
Definition stalled_fsolve (f : float64 -> float64) (guess : float64) : float64 :=
  guess.

(** The real number a finite NumPy value stands for. *)
Definition to_real (v : float64) : R :=
  match v with
  | Fin r => r
  | _ => 0
  end.

(** ** The table handed to the display *)

(** The dictionary of columns built for [st.dataframe], in its order of
    insertion: [row[0]], [row[1]] and [row[2]] of every row. *)
Definition table_columns (table : list row) : list (string * list float64) :=
  [ ("x (Liquid Heptane)"%string, map (fun r : row => fst (fst r)) table);
    ("y (Vapor Heptane)"%string, map (fun r : row => snd (fst r)) table);
    ("T (°C)"%string, map (fun r : row => snd r) table) ].


(** * Auxiliary facts *)

(** ** Elementary facts on [exp], [ln] and powers of ten *)

Lemma ln10_pos : 0 < ln 10.
Proof.
  rewrite <- ln_1. apply ln_increasing; lra.
Qed.

Lemma pow10_real_lt (e1 e2 : R) : e1 < e2 -> exp (e1 * ln 10) < exp (e2 * ln 10).
Proof.
  intros H. apply exp_increasing. apply Rmult_lt_compat_r; [apply ln10_pos | exact H].
Qed.

Lemma pow10_real_le (e1 e2 : R) : e1 <= e2 -> exp (e1 * ln 10) <= exp (e2 * ln 10).
Proof.
  intros [H | ->]; [left; now apply pow10_real_lt | right; reflexivity].
Qed.

Lemma pow10_real_log10 (p : R) : 0 < p -> exp (log10 p * ln 10) = p.
Proof.
  intros Hp. unfold log10.
  replace (ln p / ln 10 * ln 10) with (ln p)
    by (field; apply Rgt_not_eq, ln10_pos).
  now apply exp_ln.
Qed.

Lemma pow10_real_nat (n : nat) : exp (INR n * ln 10) = 10 ^ n.
Proof.
  rewrite <- ln_pow by lra. apply exp_ln. apply pow_lt; lra.
Qed.

Lemma pow10_fifth : 3 / 2 < exp (1 / 5 * ln 10).
Proof.
  assert (H : ln ((3 / 2) ^ 5) < ln 10) by (apply ln_increasing; lra).
  rewrite ln_pow in H by lra. simpl INR in H.
  rewrite <- (exp_ln (3 / 2)) at 1 by lra.
  apply exp_increasing. lra.
Qed.

(** A logarithm to base ten is bracketed by comparing integer powers:
    [b^p < a^q] gives [p * ln b < q * ln a]. *)
Lemma ln_power_compare (a b p q : positive) :
  (Zpos b ^ Zpos p < Zpos a ^ Zpos q)%Z ->
  IZR (Zpos p) * ln (IZR (Zpos b)) < IZR (Zpos q) * ln (IZR (Zpos a)).
Proof.
  intros Hpow. apply IZR_lt in Hpow.
  rewrite <- (positive_nat_Z p), <- (positive_nat_Z q) in Hpow at 1.
  rewrite <- !pow_IZR in Hpow.
  assert (Ha : 0 < IZR (Zpos a)) by (apply IZR_lt; lia).
  assert (Hb : 0 < IZR (Zpos b)) by (apply IZR_lt; lia).
  apply ln_increasing in Hpow; [| now apply pow_lt].
  rewrite !ln_pow in Hpow by assumption.
  now rewrite !INR_IZR_INZ, !positive_nat_Z in Hpow.
Qed.

Lemma log10_above_ratio (a p q : positive) :
  (10 ^ Zpos p < Zpos a ^ Zpos q)%Z ->
  IZR (Zpos p) / IZR (Zpos q) < log10 (IZR (Zpos a)).
Proof.
  intros Hpow. pose proof (ln_power_compare a 10 p q Hpow) as H.
  pose proof ln10_pos as L.
  assert (Hq : 0 < IZR (Zpos q)) by (apply IZR_lt; lia).
  unfold log10.
  apply Rmult_lt_reg_r with (IZR (Zpos q) * ln 10); [now apply Rmult_lt_0_compat |].
  replace (IZR (Zpos p) / IZR (Zpos q) * (IZR (Zpos q) * ln 10))
    with (IZR (Zpos p) * ln 10) by (field; lra).
  replace (ln (IZR (Zpos a)) / ln 10 * (IZR (Zpos q) * ln 10))
    with (IZR (Zpos q) * ln (IZR (Zpos a))) by (field; lra).
  exact H.
Qed.

Lemma log10_below_ratio (a p q : positive) :
  (Zpos a ^ Zpos q < 10 ^ Zpos p)%Z ->
  log10 (IZR (Zpos a)) < IZR (Zpos p) / IZR (Zpos q).
Proof.
  intros Hpow. pose proof (ln_power_compare 10 a q p Hpow) as H.
  pose proof ln10_pos as L.
  assert (Hq : 0 < IZR (Zpos q)) by (apply IZR_lt; lia).
  unfold log10.
  apply Rmult_lt_reg_r with (IZR (Zpos q) * ln 10); [now apply Rmult_lt_0_compat |].
  replace (IZR (Zpos p) / IZR (Zpos q) * (IZR (Zpos q) * ln 10))
    with (IZR (Zpos p) * ln 10) by (field; lra).
  replace (ln (IZR (Zpos a)) / ln 10 * (IZR (Zpos q) * ln 10))
    with (IZR (Zpos q) * ln (IZR (Zpos a))) by (field; lra).
  exact H.
Qed.

(** Rational brackets of [log10 760] and of its neighbours. *)
Lemma log10_760_lower : 193 / 67 < log10 760.
Proof. apply (log10_above_ratio 760 193 67). reflexivity. Qed.

Lemma log10_760_upper : log10 760 < 121 / 42.
Proof. apply (log10_below_ratio 760 121 42). reflexivity. Qed.

Lemma log10_759_lower : 23 / 8 < log10 759.
Proof. apply (log10_above_ratio 759 23 8). reflexivity. Qed.

Lemma log10_759_upper : log10 759 < 29 / 10.
Proof. apply (log10_below_ratio 759 29 10). reflexivity. Qed.

Lemma log10_761_upper : log10 761 < 29 / 10.
Proof. apply (log10_below_ratio 761 29 10). reflexivity. Qed.

Lemma Rabs_le_between (a b : R) : Rabs a <= b -> - b <= a <= b.
Proof.
  unfold Rabs. destruct (Rcase_abs a); lra.
Qed.

Lemma convex_below (x a b m : R) :
  0 <= x <= 1 -> a < m -> b < m -> x * a + (1 - x) * b < m.
Proof.
  intros Hx Ha Hb. destruct (Rle_dec a b).
  - assert (x * (a - b) <= 0) by nra. lra.
  - assert (x * (a - b) <= a - b) by nra. lra.
Qed.

Lemma convex_above (x a b m : R) :
  0 <= x <= 1 -> m < a -> m < b -> m < x * a + (1 - x) * b.
Proof.
  intros Hx Ha Hb. destruct (Rle_dec a b).
  - assert (a - b <= x * (a - b)) by nra. lra.
  - assert (0 <= x * (a - b)) by nra. lra.
Qed.

(** ** The saturation pressure as a real function *)

Lemma Psat_pos (c : constants) (t : R) : 0 < Psat c t.
Proof. apply exp_pos. Qed.

Lemma Psat_increasing (c : constants) (t1 t2 : R) :
  0 < cB c -> 0 < cC c + t1 -> t1 < t2 -> Psat c t1 < Psat c t2.
Proof.
  intros HB H1 H12. unfold Psat. apply pow10_real_lt.
  assert (H : / (cC c + t2) < / (cC c + t1)).
  { apply Rinv_lt_contravar; [apply Rmult_lt_0_compat; lra | lra]. }
  unfold Rdiv. nra.
Qed.


(** Left of the pole [T = -C] the exponent exceeds [A]. *)
Lemma Psat_left_of_pole (c : constants) (t : R) :
  0 < cB c -> cC c + t < 0 -> exp (cA c * ln 10) < Psat c t.
Proof.
  intros HB Hneg. unfold Psat. apply pow10_real_lt.
  assert (H : / (cC c + t) < 0) by now apply Rinv_lt_0_compat.
  unfold Rdiv. nra.
Qed.

Lemma boiling_point_domain (c : constants) (p : R) :
  0 < cB c -> log10 p < cA c -> 0 < cC c + boiling_point c p.
Proof.
  intros HB HA. unfold boiling_point.
  replace (cC c + (cB c / (cA c - log10 p) - cC c))
    with (cB c / (cA c - log10 p)) by ring.
  apply Rdiv_lt_0_compat; lra.
Qed.

Lemma Psat_boiling_point (c : constants) (p : R) :
  0 < p -> 0 < cB c -> log10 p < cA c -> Psat c (boiling_point c p) = p.
Proof.
  intros Hp HB HA. unfold Psat, boiling_point.
  replace (cA c - cB c / (cC c + (cB c / (cA c - log10 p) - cC c)))
    with (log10 p) by (field; lra).
  now apply pow10_real_log10.
Qed.


(** The two records the program unpacks from its table. *)
Lemma antoine_constants_lookup :
  lookup "heptane" antoine_constants = Some heptane /\
  lookup "octane" antoine_constants = Some octane.
Proof. split; reflexivity. Qed.

Lemma heptane_B_pos : 0 < cB heptane.
Proof. simpl. lra. Qed.

Lemma octane_B_pos : 0 < cB octane.
Proof. simpl. lra. Qed.

Lemma heptane_A_above : log10 760 < cA heptane.
Proof. pose proof log10_760_upper. simpl. lra. Qed.

Lemma octane_A_above : log10 760 < cA octane.
Proof. pose proof log10_760_upper. simpl. lra. Qed.

(** Below the boiling point at the level [p] a component stays below
    [p], the pole included; above it, above [p]. *)
Lemma Psat_np_below_level (c : constants) (p t : R) :
  0 < p -> 0 < cB c -> log10 p < cA c ->
  0 <= cC c + t -> t < boiling_point c p -> Psat_np c t < p.
Proof.
  intros Hp HB HA Hd Hlt. unfold Psat_np.
  destruct (Req_dec_T (cC c + t) 0) as [_ | Hnz]; [lra |].
  pose proof (Psat_boiling_point c p Hp HB HA) as E.
  pose proof (Psat_increasing c t (boiling_point c p) HB ltac:(lra) Hlt). lra.
Qed.

Lemma Psat_above_level (c : constants) (p t : R) :
  0 < p -> 0 < cB c -> log10 p < cA c ->
  boiling_point c p < t -> p < Psat c t.
Proof.
  intros Hp HB HA Hlt.
  pose proof (Psat_boiling_point c p Hp HB HA) as E.
  pose proof (Psat_increasing c (boiling_point c p) t HB
                (boiling_point_domain c p HB HA) Hlt). lra.
Qed.

Lemma Psat_np_below (c : constants) (t : R) :
  0 < cB c -> log10 760 < cA c ->
  0 <= cC c + t -> t < boiling_point c 760 -> Psat_np c t < 760.
Proof. apply Psat_np_below_level. lra. Qed.

Lemma Psat_above (c : constants) (t : R) :
  0 < cB c -> log10 760 < cA c ->
  boiling_point c 760 < t -> 760 < Psat c t.
Proof. apply Psat_above_level. lra. Qed.

(** Normal boiling points given by the constants of the script. *)
Lemma heptane_boiling_point :
  9802 / 100 < boiling_point heptane 760 < 9806 / 100.
Proof.
  pose proof log10_760_lower as Hl. pose proof log10_760_upper as Hu.
  unfold boiling_point. simpl.
  set (d := 6893 / 1000 - log10 760).
  assert (Hd : 0 < d) by (unfold d; lra).
  assert (E : 1260 / d * d = 1260) by (field; lra).
  assert (Hq : 0 < 1260 / d) by (apply Rdiv_lt_0_compat; lra).
  unfold d in *. split; nra.
Qed.

Lemma octane_boiling_point :
  11833 / 100 < boiling_point octane 760 < 11837 / 100.
Proof.
  pose proof log10_760_lower as Hl. pose proof log10_760_upper as Hu.
  unfold boiling_point. simpl.
  set (d := 69094 / 10000 - log10 760).
  assert (Hd : 0 < d) by (unfold d; lra).
  assert (E : 1351 / d * d = 1351) by (field; lra).
  assert (Hq : 0 < 1351 / d) by (apply Rdiv_lt_0_compat; lra).
  unfold d in *. split; nra.
Qed.

Lemma boiling_points_759 :
  97 < boiling_point heptane 759 /\ 97 < boiling_point octane 759.
Proof.
  pose proof log10_759_lower as Hl. pose proof log10_759_upper as Hu.
  unfold boiling_point. simpl.
  set (d_h := 6893 / 1000 - log10 759).
  set (d_o := 69094 / 10000 - log10 759).
  assert (Hdh : 0 < d_h) by (unfold d_h; lra).
  assert (Hdo : 0 < d_o) by (unfold d_o; lra).
  assert (Eh : 1260 / d_h * d_h = 1260) by (field; lra).
  assert (Eo : 1351 / d_o * d_o = 1351) by (field; lra).
  assert (0 < 1260 / d_h) by (apply Rdiv_lt_0_compat; lra).
  assert (0 < 1351 / d_o) by (apply Rdiv_lt_0_compat; lra).
  unfold d_h, d_o in *. split; nra.
Qed.

Lemma boiling_points_761 :
  boiling_point heptane 761 < 120 /\ boiling_point octane 761 < 120.
Proof.
  pose proof log10_761_upper as Hu.
  unfold boiling_point. simpl.
  set (d_h := 6893 / 1000 - log10 761).
  set (d_o := 69094 / 10000 - log10 761).
  assert (Hdh : 0 < d_h) by (unfold d_h; lra).
  assert (Hdo : 0 < d_o) by (unfold d_o; lra).
  assert (Eh : 1260 / d_h * d_h = 1260) by (field; lra).
  assert (Eo : 1351 / d_o * d_o = 1351) by (field; lra).
  assert (0 < 1260 / d_h) by (apply Rdiv_lt_0_compat; lra).
  assert (0 < 1351 / d_o) by (apply Rdiv_lt_0_compat; lra).
  unfold d_h, d_o in *. split; nra.
Qed.

Lemma heptane_above_760_at_guess : 760 < Psat heptane 100.
Proof.
  pose proof heptane_boiling_point as [_ H].
  apply (Psat_above heptane 100 heptane_B_pos heptane_A_above). lra.
Qed.

(** Between 97 and 120 degrees heptane is the more volatile by at least
    50 mmHg. *)
Lemma volatility_gap (t : R) :
  97 <= t <= 120 -> 50 <= Psat heptane t - Psat octane t.
Proof.
  intros Ht. unfold Psat. simpl.
  set (eo := 69094 / 10000 - 1351 / (217 + t)).
  set (eh := 6893 / 1000 - 1260 / (216 + t)).
  assert (Hgap : eo + 1 / 5 <= eh).
  { unfold eo, eh.
    assert (E : 1351 / (217 + t) - 1260 / (216 + t)
                = (91 * t + 18396) / ((216 + t) * (217 + t))) by (field; lra).
    assert (D : 0 < (216 + t) * (217 + t)) by nra.
    assert (Q : 2164 / 10000 <= (91 * t + 18396) / ((216 + t) * (217 + t))).
    { apply Rmult_le_reg_r with ((216 + t) * (217 + t)); [exact D |].
      replace ((91 * t + 18396) / ((216 + t) * (217 + t)) * ((216 + t) * (217 + t)))
        with (91 * t + 18396) by (field; lra).
      nra. }
    lra. }
  assert (Hlow : 2 <= eo).
  { unfold eo.
    assert (1351 / (217 + t) <= 1351 / 314).
    { unfold Rdiv. apply Rmult_le_compat_l; [lra |].
      apply Rinv_le_contravar; lra. }
    lra. }
  pose proof (pow10_real_le _ _ Hgap) as H1.
  pose proof (pow10_real_le _ _ Hlow) as H2.
  replace ((eo + 1 / 5) * ln 10) with (eo * ln 10 + 1 / 5 * ln 10) in H1 by ring.
  rewrite exp_plus in H1.
  replace 2 with (INR 2) in H2 at 1 by (simpl; lra).
  rewrite pow10_real_nat in H2.
  pose proof pow10_fifth as H5.
  pose proof (exp_pos (eo * ln 10)).
  nra.
Qed.

(** ** The residual that [fsolve] sees *)

Lemma antoine_np_Fin (c : constants) (t : R) :
  0 < cB c ->
  antoine_np (Fin t) (cA c) (cB c) (cC c) = Fin (Psat_np c t).
Proof.
  intros HB. unfold antoine_np, Psat_np, Psat. simpl.
  destruct (Req_dec_T (cC c + t) 0) as [Hz | Hnz].
  - unfold sign_inf. destruct (Rlt_dec 0 (cB c)) as [_ | Hn]; [reflexivity | contradiction].
  - reflexivity.
Qed.

Lemma antoine_np_infinite (c : constants) (T : float64) :
  T = PInf \/ T = NInf ->
  antoine_np T (cA c) (cB c) (cC c) = Fin (exp ((cA c + - 0) * ln 10)).
Proof. intros [-> | ->]; reflexivity. Qed.

Lemma func_Fin (x t : R) :
  func heptane octane P_total (Fin x) (Fin t) = Fin (residual_np x t).
Proof.
  unfold func. rewrite (antoine_np_Fin heptane), (antoine_np_Fin octane)
    by (simpl; lra).
  reflexivity.
Qed.

Lemma Psat_np_nonneg (c : constants) (t : R) : 0 <= Psat_np c t.
Proof.
  unfold Psat_np. destruct (Req_dec_T (cC c + t) 0); [lra | left; apply Psat_pos].
Qed.

Lemma Psat_np_physical (c : constants) (t : R) :
  0 < cC c + t -> Psat_np c t = Psat c t.
Proof.
  intros H. unfold Psat_np. destruct (Req_dec_T (cC c + t) 0); [lra | reflexivity].
Qed.

Lemma residual_np_physical (x t : R) :
  -216 < t -> residual_np x t = residual x t.
Proof.
  intros H. unfold residual_np, residual.
  rewrite !Psat_np_physical by (simpl; lra). reflexivity.
Qed.

(** Both constants [A] put the level left of the pole above [10^5]. *)
Lemma level_heptane : 100000 < exp (cA heptane * ln 10).
Proof.
  replace 100000 with (10 ^ 5) by lra. rewrite <- pow10_real_nat.
  apply pow10_real_lt. simpl. lra.
Qed.

Lemma level_octane : 100000 < exp (cA octane * ln 10).
Proof.
  replace 100000 with (10 ^ 5) by lra. rewrite <- pow10_real_nat.
  apply pow10_real_lt. simpl. lra.
Qed.

Lemma Psat_heptane_left (t : R) : t < -216 -> 100000 < Psat_np heptane t.
Proof.
  intros H. unfold Psat_np. destruct (Req_dec_T (cC heptane + t) 0) as [E | _].
  - simpl in E. lra.
  - pose proof level_heptane.
    pose proof (Psat_left_of_pole heptane t heptane_B_pos). simpl in *. lra.
Qed.

Lemma Psat_octane_left (t : R) : t < -217 -> 100000 < Psat_np octane t.
Proof.
  intros H. unfold Psat_np. destruct (Req_dec_T (cC octane + t) 0) as [E | _].
  - simpl in E. lra.
  - pose proof level_octane.
    pose proof (Psat_left_of_pole octane t octane_B_pos). simpl in *. lra.
Qed.

(** ** The pressure balance on the physical branch *)

Lemma residual_increasing (x t1 t2 : R) :
  0 <= x <= 1 -> -216 < t1 -> t1 < t2 -> residual x t1 < residual x t2.
Proof.
  intros Hx H1 H12. unfold residual.
  pose proof (Psat_increasing heptane t1 t2 heptane_B_pos ltac:(simpl; lra) H12).
  pose proof (Psat_increasing octane t1 t2 octane_B_pos ltac:(simpl; lra) H12).
  set (d_h := Psat heptane t2 - Psat heptane t1) in *.
  set (d_o := Psat octane t2 - Psat octane t1) in *.
  assert (0 < x * d_h + (1 - x) * d_o).
  { destruct (Rle_dec x (1 / 2)).
    - assert (0 <= x * d_h) by (apply Rmult_le_pos; unfold d_h; lra).
      assert (d_o / 2 <= (1 - x) * d_o) by (unfold d_o in *; nra).
      unfold d_o in *. lra.
    - assert (0 <= (1 - x) * d_o) by (apply Rmult_le_pos; unfold d_o; lra).
      assert (d_h / 2 <= x * d_h) by (unfold d_h in *; nra).
      unfold d_h in *. lra. }
  unfold d_h, d_o in *. lra.
Qed.

(** On the physical branch the zero is the only one. *)
Lemma residual_root_unique (x t t' : R) :
  0 <= x <= 1 -> -216 < t -> -216 < t' ->
  residual x t = 0 -> residual x t' = 0 -> t = t'.
Proof.
  intros Hx Ht Ht' E E'.
  destruct (Rtotal_order t t') as [Hlt | [Heq | Hgt]]; [exfalso | exact Heq | exfalso].
  - pose proof (residual_increasing x t t' Hx Ht Hlt). lra.
  - pose proof (residual_increasing x t' t Hx Ht' Hgt). lra.
Qed.

Lemma residual_continuous (x a : R) :
  -216 < a -> continuity_pt (residual x) a.
Proof.
  intros Ha.
  assert (H1 : cC heptane + a <> 0) by (simpl; lra).
  assert (H2 : cC octane + a <> 0) by (simpl; lra).
  apply derivable_continuous_pt.
  unfold residual, Psat, P_total. reg.
Qed.

Lemma residual_has_root (x : R) :
  0 <= x <= 1 ->
  exists t, 98 <= t <= 119 /\ residual x t = 0.
Proof.
  intros Hx.
  pose proof heptane_boiling_point as [Hh1 Hh2].
  pose proof octane_boiling_point as [Ho1 Ho2].
  assert (Hlo : residual x 98 < 0).
  { pose proof (Psat_np_below heptane 98 heptane_B_pos heptane_A_above
                  ltac:(simpl; lra) ltac:(lra)) as Ph.
    pose proof (Psat_np_below octane 98 octane_B_pos octane_A_above
                  ltac:(simpl; lra) ltac:(lra)) as Po.
    rewrite Psat_np_physical in Ph, Po by (simpl; lra).
    pose proof (convex_below x _ _ 760 Hx Ph Po).
    unfold residual, P_total. lra. }
  assert (Hhi : 0 < residual x 119).
  { pose proof (Psat_above heptane 119 heptane_B_pos heptane_A_above ltac:(lra)) as Ph.
    pose proof (Psat_above octane 119 octane_B_pos octane_A_above ltac:(lra)) as Po.
    pose proof (convex_above x _ _ 760 Hx Ph Po).
    unfold residual, P_total. lra. }
  destruct (IVT_interv (residual x) 98 119) as [z [Hz Ez]];
    [intros a Ha; apply residual_continuous; lra | lra | exact Hlo | exact Hhi |].
  exists z. split; assumption.
Qed.


(** ** Where the residual vanishes, or nearly *)

(** A residual that is a finite number of moderate size comes from a
    finite temperature: at [inf] and [-inf] both pressures are [10^A]. *)
Lemma finite_residual (x rho : R) (T : float64) :
  0 <= x <= 1 -> rho < 99000 ->
  func heptane octane P_total (Fin x) T = Fin rho ->
  exists t, T = Fin t /\ residual_np x t = rho.
Proof.
  intros Hx Hrho Hroot.
  pose proof level_heptane as Lh. pose proof level_octane as Lo.
  assert (Hinf : T = PInf \/ T = NInf -> False).
  { intros Hi. unfold func in Hroot.
    rewrite (antoine_np_infinite heptane T Hi),
            (antoine_np_infinite octane T Hi) in Hroot.
    simpl in Hroot. injection Hroot as Hroot.
    replace (6893 / 1000 + - 0) with (cA heptane) in Hroot by (simpl; lra).
    replace (69094 / 10000 + - 0) with (cA octane) in Hroot by (simpl; lra).
    pose proof (convex_above x _ _ 100000 Hx Lh Lo).
    unfold P_total in Hroot. lra. }
  destruct T as [t | | | ].
  - exists t. split; [reflexivity |].
    rewrite func_Fin in Hroot. now injection Hroot.
  - exfalso. apply Hinf. now left.
  - exfalso. apply Hinf. now right.
  - discriminate Hroot.
Qed.

(** A non-finite temperature is never a zero of the residual. *)
Lemma root_is_finite (x : R) (T : float64) :
  0 <= x <= 1 ->
  func heptane octane P_total (Fin x) T = Fin 0 ->
  exists t, T = Fin t /\ residual_np x t = 0.
Proof.
  intros Hx Hroot. apply (finite_residual x 0 T Hx ltac:(lra) Hroot).
Qed.

(** At a sweep sample ([x = 0] or [x >= 1/20]) the residual has no zero
    outside the interval between the two normal boiling points; the
    poles and the branches left of them are excluded by size. *)
Lemma sample_root_bracket (x t : R) :
  x = 0 \/ 1 / 20 <= x <= 1 ->
  residual_np x t = 0 ->
  boiling_point heptane 760 <= t <= boiling_point octane 760.
Proof.
  intros Hx Hroot.
  pose proof heptane_boiling_point as [Hh1 Hh2].
  pose proof octane_boiling_point as [Ho1 Ho2].
  pose proof heptane_B_pos as HBh. pose proof octane_B_pos as HBo.
  pose proof heptane_A_above as HAh. pose proof octane_A_above as HAo.
  pose proof (Psat_np_nonneg heptane t) as Nh.
  pose proof (Psat_np_nonneg octane t) as No.
  assert (Hx01 : 0 <= x <= 1) by (destruct Hx; lra).
  unfold residual_np, P_total in Hroot.
  destruct (Rlt_dec t (-217)) as [H1 | H1].
  { pose proof (Psat_heptane_left t ltac:(lra)).
    pose proof (Psat_octane_left t H1). nra. }
  destruct (Rlt_dec t (-216)) as [H2 | H2].
  { pose proof (Psat_heptane_left t H2) as Ph.
    pose proof (Psat_np_below octane t HBo HAo ltac:(simpl; lra) ltac:(lra)) as Po.
    destruct Hx as [-> | Hx]; nra. }
  destruct (Rlt_dec t (boiling_point heptane 760)) as [H3 | H3].
  { pose proof (Psat_np_below heptane t HBh HAh ltac:(simpl; lra) H3) as Ph.
    pose proof (Psat_np_below octane t HBo HAo ltac:(simpl; lra) ltac:(lra)) as Po.
    nra. }
  destruct (Rlt_dec (boiling_point octane 760) t) as [H4 | H4].
  { rewrite !Psat_np_physical in Hroot by (simpl; lra).
    pose proof (Psat_above heptane t HBh HAh ltac:(lra)) as Ph.
    pose proof (Psat_above octane t HBo HAo H4) as Po.
    nra. }
  lra.
Qed.

(** At a sweep sample a residual within 1 mmHg of zero pins the
    temperature between 97 and 120 degrees. *)
Lemma near_root_bracket (x t : R) :
  x = 0 \/ 1 / 20 <= x <= 1 ->
  -1 <= residual_np x t <= 1 ->
  97 < t < 120.
Proof.
  intros Hx Hr.
  pose proof boiling_points_759 as [Bh9 Bo9].
  pose proof boiling_points_761 as [Bh1 Bo1].
  pose proof log10_759_upper as U9. pose proof log10_761_upper as U1.
  pose proof heptane_B_pos as HBh. pose proof octane_B_pos as HBo.
  assert (HAh9 : log10 759 < cA heptane) by (simpl; lra).
  assert (HAo9 : log10 759 < cA octane) by (simpl; lra).
  assert (HAh1 : log10 761 < cA heptane) by (simpl; lra).
  assert (HAo1 : log10 761 < cA octane) by (simpl; lra).
  pose proof (Psat_np_nonneg heptane t) as Nh.
  pose proof (Psat_np_nonneg octane t) as No.
  assert (Hx01 : 0 <= x <= 1) by (destruct Hx; lra).
  unfold residual_np, P_total in Hr.
  destruct (Rlt_dec t (-217)) as [H1 | H1].
  { pose proof (Psat_heptane_left t ltac:(lra)) as Ph.
    pose proof (Psat_octane_left t H1) as Po.
    pose proof (convex_above x _ _ 100000 Hx01 Ph Po). lra. }
  destruct (Rlt_dec t (-216)) as [H2 | H2].
  { pose proof (Psat_heptane_left t H2) as Ph.
    pose proof (Psat_np_below_level octane 759 t ltac:(lra) HBo HAo9
                  ltac:(simpl; lra) ltac:(lra)) as Po.
    destruct Hx as [-> | Hx]; nra. }
  destruct (Rle_dec t 97) as [H3 | H3].
  { pose proof (Psat_np_below_level heptane 759 t ltac:(lra) HBh HAh9
                  ltac:(simpl; lra) ltac:(lra)) as Ph.
    pose proof (Psat_np_below_level octane 759 t ltac:(lra) HBo HAo9
                  ltac:(simpl; lra) ltac:(lra)) as Po.
    pose proof (convex_below x _ _ 759 Hx01 Ph Po). lra. }
  destruct (Rle_dec 120 t) as [H4 | H4].
  { rewrite !Psat_np_physical in Hr by (simpl; lra).
    pose proof (Psat_above_level heptane 761 t ltac:(lra) HBh HAh1 ltac:(lra)) as Ph.
    pose proof (Psat_above_level octane 761 t ltac:(lra) HBo HAo1 ltac:(lra)) as Po.
    pose proof (convex_above x _ _ 761 Hx01 Ph Po). lra. }
  lra.
Qed.

(** Two neighbouring samples whose residuals are within 1 mmHg of zero
    still have their temperatures in order. *)
Lemma near_roots_antitone (x x' t t' : R) :
  0 <= x -> x + 1 / 20 <= x' -> x' <= 1 ->
  97 < t < 120 -> -216 < t' ->
  -1 <= residual x t -> residual x' t' <= 1 -> t' <= t.
Proof.
  intros Hx Hxx Hx' Ht Ht' Hr Hr'.
  destruct (Rle_dec t' t) as [Hle | Hgt]; [exact Hle | exfalso].
  pose proof (volatility_gap t ltac:(lra)) as G.
  assert (Hinc : residual x' t < residual x' t')
    by (apply residual_increasing; lra).
  assert (Hstep : residual x t + (x' - x) * (Psat heptane t - Psat octane t)
                  = residual x' t) by (unfold residual; ring).
  assert ((1 / 20) * 50 <= (x' - x) * (Psat heptane t - Psat octane t))
    by (apply Rmult_le_compat; lra).
  lra.
Qed.

(** ** The loop *)

Section Loop.

Variable fsolve : (float64 -> float64) -> float64 -> float64.
Variables (c1 c2 : constants) (P : R).

Lemma body_ok (st : state) (x : float64) :
  body fsolve c1 c2 P st x =
  Ok (State (T_vals st ++ [bubble_point_temp fsolve c1 c2 P x])
            (y_vals st ++ [y_of fsolve c1 c2 P x])
            (table_data st ++ [row_of fsolve c1 c2 P x])).
Proof. reflexivity. Qed.

(** The accumulators only grow: the loop never reads them back. *)
Lemma loop_appends (xs : list float64) : forall st : state,
  loop fsolve c1 c2 P st xs =
  Ok (State (T_vals st ++ map (bubble_point_temp fsolve c1 c2 P) xs)
            (y_vals st ++ map (y_of fsolve c1 c2 P) xs)
            (table_data st ++ map (row_of fsolve c1 c2 P) xs)).
Proof.
  induction xs as [| x xs IH]; intros st.
  - simpl. rewrite !app_nil_r. now destruct st.
  - cbn [loop]. rewrite body_ok, IH. cbn [T_vals y_vals table_data map].
    rewrite <- !app_assoc. reflexivity.
Qed.

Lemma sweep_ok (xs : list float64) :
  sweep fsolve c1 c2 P xs =
  Ok (State (map (bubble_point_temp fsolve c1 c2 P) xs)
            (map (y_of fsolve c1 c2 P) xs)
            (map (row_of fsolve c1 c2 P) xs)).
Proof. unfold sweep. now rewrite loop_appends. Qed.

End Loop.

Lemma main_ok (fsolve : (float64 -> float64) -> float64 -> float64) :
  main fsolve =
  Ok (State (map (bubble_point_temp fsolve heptane octane P_total) x_vals)
            (map (y_of fsolve heptane octane P_total) x_vals)
            (map (row_of fsolve heptane octane P_total) x_vals)).
Proof. unfold main. apply sweep_ok. Qed.

(** ** The grid and the display rounding *)

Lemma linspace_grid :
  linspace 0 1 21 = map (fun i : nat => INR i / 20) (seq 0 21).
Proof.
  unfold linspace. cbn [Nat.ltb Nat.leb Nat.sub seq map removelast app].
  rewrite !INR_IZR_INZ. cbn [Z.of_nat Pos.of_succ_nat Pos.succ].
  repeat (f_equal; [lra |]). f_equal. lra.
Qed.

Lemma x_vals_grid :
  x_vals = map (fun i : nat => Fin (INR i / 20)) (seq 0 21).
Proof.
  unfold x_vals. rewrite linspace_grid, map_map. reflexivity.
Qed.

Lemma x_vals_length : List.length x_vals = 21%nat.
Proof. rewrite x_vals_grid, length_map, length_seq. reflexivity. Qed.

Lemma x_vals_first : hd NaN x_vals = Fin 0.
Proof.
  rewrite x_vals_grid. cbn [seq map hd]. f_equal. simpl. lra.
Qed.

Lemma x_vals_last : last x_vals NaN = Fin 1.
Proof.
  rewrite x_vals_grid.
  change (seq 0 21) with (seq 0 20 ++ [20%nat]).
  rewrite map_app. cbn [map]. rewrite last_last. f_equal.
  rewrite INR_IZR_INZ. simpl. lra.
Qed.

Lemma grid_sorted (n a : nat) :
  StronglySorted Rlt (map (fun i : nat => INR i / 20) (seq a n)).
Proof.
  revert a. induction n as [| n IH]; intros a; cbn [seq map].
  - constructor.
  - constructor; [apply IH |].
    apply Forall_forall. intros r Hr.
    apply in_map_iff in Hr as [j [<- Hj]]. apply in_seq in Hj.
    assert (INR a < INR j) by (apply lt_INR; lia). lra.
Qed.

Lemma sorted_NoDup (l : list R) : StronglySorted Rlt l -> NoDup l.
Proof.
  induction 1 as [| a l Hs IH Hall]; constructor; [| exact IH].
  intros Hin. rewrite Forall_forall in Hall. specialize (Hall a Hin). lra.
Qed.

Lemma Fin_map_NoDup (l : list R) : NoDup l -> NoDup (map Fin l).
Proof.
  induction 1 as [| a l Hn Hd IH]; cbn [map]; constructor; [| exact IH].
  intros Hin. apply in_map_iff in Hin as [b [E Hb]].
  injection E as ->. contradiction.
Qed.

Lemma Int_part_IZR (z : Z) : Int_part (IZR z) = z.
Proof.
  unfold Int_part. rewrite <- (up_tech (IZR z) z); [lia | lra |].
  rewrite plus_IZR. lra.
Qed.

Lemma rint_IZR (z : Z) : rint (IZR z) = z.
Proof.
  unfold rint. rewrite Int_part_IZR.
  destruct (Rlt_dec (IZR z - IZR z) (1 / 2)) as [_ | H]; [reflexivity | lra].
Qed.

(** A multiple of 0.05 has at most three decimals: rounding keeps it. *)
Lemma round_grid (i : nat) : round (Fin (INR i / 20)) 3 = Fin (INR i / 20).
Proof.
  unfold round.
  replace (INR i / 20 * 10 ^ 3) with (IZR (50 * Z.of_nat i))
    by (rewrite mult_IZR, <- INR_IZR_INZ; simpl; lra).
  rewrite rint_IZR, mult_IZR, <- INR_IZR_INZ. f_equal. simpl. lra.
Qed.

Lemma round_x_vals : map (fun x => round x 3) x_vals = x_vals.
Proof.
  rewrite x_vals_grid, map_map. apply map_ext. intros i. apply round_grid.
Qed.

Lemma sample_real (x : float64) :
  In x x_vals -> exists r, x = Fin r /\ (r = 0 \/ 1 / 20 <= r <= 1).
Proof.
  rewrite x_vals_grid, in_map_iff. intros [i [<- Hi]]. apply in_seq in Hi.
  exists (INR i / 20). split; [reflexivity |].
  destruct i as [| i]; [left; simpl; lra | right].
  assert (INR 1 <= INR (S i)) by (apply le_INR; lia).
  assert (INR (S i) <= INR 20) by (apply le_INR; lia).
  rewrite !INR_IZR_INZ in *. simpl Z.of_nat in *. lra.
Qed.

Lemma in_x_vals_real (r : R) :
  In (Fin r) x_vals -> r = 0 \/ 1 / 20 <= r <= 1.
Proof.
  intros Hin. destruct (sample_real _ Hin) as [r' [E Hr]].
  injection E as ->. exact Hr.
Qed.

Lemma grid_in_x_vals (i : nat) : (i < 21)%nat -> In (Fin (INR i / 20)) x_vals.
Proof.
  intros Hi. rewrite x_vals_grid.
  apply in_map_iff. exists i. split; [reflexivity | apply in_seq; lia].
Qed.

Lemma one_in_x_vals : In (Fin 1) x_vals.
Proof.
  rewrite x_vals_grid. apply in_map_iff. exists 20%nat. split.
  - f_equal. rewrite INR_IZR_INZ. simpl. lra.
  - apply in_seq. lia.
Qed.

Lemma samples_spaced (xi xj : R) :
  In (Fin xi) x_vals -> In (Fin xj) x_vals -> xi < xj -> xi + 1 / 20 <= xj.
Proof.
  rewrite x_vals_grid, !in_map_iff.
  intros [i [Ei _]] [j [Ej _]] Hlt.
  injection Ei as <-. injection Ej as <-.
  assert (Hij : (i < j)%nat).
  { apply INR_lt. lra. }
  assert (INR (S i) <= INR j) by (apply le_INR; lia).
  rewrite S_INR in *. lra.
Qed.

Lemma antitone_sorted (f : nat -> R) (n a : nat) :
  (forall i j, (a <= i)%nat -> (i <= j)%nat -> (j < a + n)%nat -> f j <= f i) ->
  StronglySorted (fun u v => v <= u) (map f (seq a n)).
Proof.
  revert a. induction n as [| n IH]; intros a Hf; cbn [seq map].
  - constructor.
  - constructor.
    + apply IH. intros i j Hi Hij Hj. apply Hf; lia.
    + apply Forall_forall. intros r Hr.
      apply in_map_iff in Hr as [j [<- Hj]]. apply in_seq in Hj.
      apply Hf; lia.
Qed.


(** ** What the contract of the root-finder gives at a sample *)

Lemma converged_within_tolerance
  (fsolve : (float64 -> float64) -> float64 -> float64) (x : float64) :
  converged fsolve x -> within_tolerance fsolve x.
Proof.
  intros Hc. exists 0. split; [exact Hc |].
  rewrite Rabs_R0. unfold tolerance. lra.
Qed.


Lemma within_tolerance_sample
  (fsolve : (float64 -> float64) -> float64 -> float64) (x : R) :
  x = 0 \/ 1 / 20 <= x <= 1 ->
  within_tolerance fsolve (Fin x) ->
  exists t, bubble_point_temp fsolve heptane octane P_total (Fin x) = Fin t /\
            97 < t < 120 /\ Rabs (residual x t) <= tolerance.
Proof.
  intros Hx [rho [Hf Hrho]].
  assert (Hsmall : -1 <= rho <= 1).
  { unfold tolerance in Hrho. apply Rabs_le_between in Hrho. lra. }
  destruct (finite_residual x rho _ ltac:(destruct Hx; lra) ltac:(lra) Hf)
    as [t [Et Er]].
  pose proof (near_root_bracket x t Hx ltac:(rewrite Er; exact Hsmall)) as Hb.
  exists t. split; [exact Et |]. split; [exact Hb |].
  rewrite <- residual_np_physical by lra. now rewrite Er.
Qed.

Lemma y_of_finite
  (fsolve : (float64 -> float64) -> float64 -> float64) (x t : R) :
  bubble_point_temp fsolve heptane octane P_total (Fin x) = Fin t ->
  -216 < t ->
  y_of fsolve heptane octane P_total (Fin x) = Fin (x * Psat heptane t / 760).
Proof.
  intros Et Ht. unfold y_of. rewrite Et.
  rewrite (antoine_np_Fin heptane t heptane_B_pos).
  rewrite Psat_np_physical by (simpl; lra).
  unfold P_total. cbn [mul div].
  destruct (Req_dec_T 760 0) as [E | _]; [lra | reflexivity].
Qed.



(** At [x1 = 1] the bound [y >= x1] is met with equality at the zero, so
    it has no slack: a temperature below the zero, however close, gives
    [y < 1]. *)
Lemma vapour_fraction_below_root
  (fsolve : (float64 -> float64) -> float64 -> float64) (t : R) :
  bubble_point_temp fsolve heptane octane P_total (Fin 1) = Fin t ->
  -216 < t < boiling_point heptane 760 ->
  exists y, y_of fsolve heptane octane P_total (Fin 1) = Fin y /\ y < 1.
Proof.
  intros Et [Hlo Hhi].
  pose proof (Psat_np_below heptane t heptane_B_pos heptane_A_above
                ltac:(simpl; lra) Hhi) as Ph.
  rewrite Psat_np_physical in Ph by (simpl; lra).
  exists (1 * Psat heptane t / 760).
  split; [apply (y_of_finite fsolve 1 t Et Hlo) | lra].
Qed.

(** The ideal root-finder converges at every composition in [0, 1]. *)
Lemma ideal_fsolve_converged (x : R) :
  0 <= x <= 1 -> converged ideal_fsolve (Fin x).
Proof.
  intros Hx. unfold converged, bubble_point_temp, ideal_fsolve.
  apply epsilon_spec.
  destruct (residual_has_root x Hx) as [t [Ht Er]].
  exists (Fin t). rewrite func_Fin, residual_np_physical by lra.
  now rewrite Er.
Qed.

Lemma ideal_fsolve_converged_samples (x : float64) :
  In x x_vals -> converged ideal_fsolve x.
Proof.
  intros Hx. destruct (sample_real x Hx) as [r [-> Hr]].
  apply ideal_fsolve_converged. destruct Hr; lra.
Qed.

(** Whether the residual is met to tolerance is a matter of the
    root-finder alone: the ideal one meets it at every composition, the
    one that returns its guess misses it at [x1 = 1] by more than
    1 mmHg. *)
Lemma tolerance_rests_on_root_finder :
  (forall x, 0 <= x <= 1 -> within_tolerance ideal_fsolve (Fin x)) /\
  ~ within_tolerance stalled_fsolve (Fin 1).
Proof.
  split.
  - intros x Hx. apply converged_within_tolerance, ideal_fsolve_converged, Hx.
  - intros [rho [Hf Hrho]].
    unfold bubble_point_temp, stalled_fsolve, T_guess in Hf.
    rewrite func_Fin, residual_np_physical in Hf by lra.
    injection Hf as <-.
    pose proof log10_761_upper as U.
    assert (Hbp : boiling_point heptane 761 < 100).
    { unfold boiling_point. simpl.
      set (d := 6893 / 1000 - log10 761).
      assert (Hd : 0 < d) by (unfold d; lra).
      assert (E : 1260 / d * d = 1260) by (field; lra).
      assert (0 < 1260 / d) by (apply Rdiv_lt_0_compat; lra).
      unfold d in *. nra. }
    pose proof (Psat_above_level heptane 761 100 ltac:(lra) heptane_B_pos
                  ltac:(simpl; lra) Hbp) as Ph.
    apply Rabs_le_between in Hrho.
    unfold residual, tolerance, P_total in Hrho. lra.
Qed.

Section NearlyConverged.

Variable fsolve : (float64 -> float64) -> float64 -> float64.
Hypothesis near : forall x, In x x_vals -> within_tolerance fsolve x.

Lemma near_samples_antitone (xi xj : R) :
  In (Fin xi) x_vals -> In (Fin xj) x_vals -> xi <= xj ->
  exists ti tj,
    bubble_point_temp fsolve heptane octane P_total (Fin xi) = Fin ti /\
    bubble_point_temp fsolve heptane octane P_total (Fin xj) = Fin tj /\
    tj <= ti.
Proof.
  intros Hi Hj Hle.
  pose proof (in_x_vals_real xi Hi) as Ri.
  pose proof (in_x_vals_real xj Hj) as Rj.
  destruct (within_tolerance_sample fsolve xi Ri (near _ Hi)) as [ti [Ei [Bi Zi]]].
  destruct (within_tolerance_sample fsolve xj Rj (near _ Hj)) as [tj [Ej [Bj Zj]]].
  exists ti, tj. split; [exact Ei |]. split; [exact Ej |].
  destruct Hle as [Hlt | Heq].
  - pose proof (samples_spaced xi xj Hi Hj Hlt) as Hsp.
    unfold tolerance in Zi, Zj.
    apply Rabs_le_between in Zi. apply Rabs_le_between in Zj.
    apply (near_roots_antitone xi xj ti tj); try lra; destruct Ri, Rj; lra.
  - subst xj. rewrite Ei in Ej. injection Ej as ->. lra.
Qed.

Lemma near_T_vals_finite :
  map (bubble_point_temp fsolve heptane octane P_total) x_vals
  = map Fin
      (map (fun x => to_real (bubble_point_temp fsolve heptane octane P_total x))
           x_vals).
Proof.
  rewrite map_map. apply map_ext_in. intros x Hx.
  destruct (sample_real x Hx) as [r [-> Hr]].
  destruct (within_tolerance_sample fsolve r Hr (near _ Hx)) as [t [Et _]].
  cbv beta. rewrite Et. reflexivity.
Qed.

End NearlyConverged.

Section Converged.

Variable fsolve : (float64 -> float64) -> float64 -> float64.
Hypothesis solved : forall x, In x x_vals -> converged fsolve x.


End Converged.

(** * The claims *)

(** ** End points and midpoint (C2) *)




(** ** Saturation pressure (C3, C8) *)






(** ** Monotonicity and enrichment (C4, C5) *)

(** C4.  When the temperatures that [fsolve] returns solve the pressure
    balance at the 21 samples (to within 1e-6 mmHg; an exact zero is
    included), the stored temperatures are finite and non-increasing
    along the sweep: for samples [x_i <= x_j], [T(x_j) <= T(x_i)]. *)
Theorem bubble_point_non_increasing
  (fsolve : (float64 -> float64) -> float64 -> float64) :
  (forall x, In x x_vals -> within_tolerance fsolve x) ->
  exists st ts, main fsolve = Ok st /\
    T_vals st = map Fin ts /\
    StronglySorted (fun u v => v <= u) ts /\
    forall xi xj, In (Fin xi) x_vals -> In (Fin xj) x_vals -> xi <= xj ->
      exists ti tj,
        bubble_point_temp fsolve heptane octane P_total (Fin xi) = Fin ti /\
        bubble_point_temp fsolve heptane octane P_total (Fin xj) = Fin tj /\
        tj <= ti.
Proof.
  intros near.
  eexists.
  exists (map (fun x => to_real (bubble_point_temp fsolve heptane octane P_total x))
              x_vals).
  split; [apply main_ok |]. cbn [T_vals].
  split; [apply (near_T_vals_finite fsolve near) |].
  split; [| apply (near_samples_antitone fsolve near)].
  rewrite x_vals_grid, map_map.
  apply antitone_sorted. intros i j _ Hij Hj.
  assert (Hle : INR i / 20 <= INR j / 20).
  { assert (INR i <= INR j) by (apply le_INR; lia). lra. }
  destruct (near_samples_antitone fsolve near _ _
              (grid_in_x_vals i ltac:(lia)) (grid_in_x_vals j ltac:(lia)) Hle)
    as [ti [tj [Ei [Ej Ht]]]].
  rewrite Ei, Ej. exact Ht.
Qed.

Lemma bubble_point_non_increasing_witness :
  exists st ts, main ideal_fsolve = Ok st /\
    T_vals st = map Fin ts /\
    StronglySorted (fun u v => v <= u) ts /\
    forall xi xj, In (Fin xi) x_vals -> In (Fin xj) x_vals -> xi <= xj ->
      exists ti tj,
        bubble_point_temp ideal_fsolve heptane octane P_total (Fin xi) = Fin ti /\
        bubble_point_temp ideal_fsolve heptane octane P_total (Fin xj) = Fin tj /\
        tj <= ti.
Proof.
  apply (bubble_point_non_increasing ideal_fsolve).
  intros x Hx.
  apply converged_within_tolerance, ideal_fsolve_converged_samples, Hx.
Defined.



(** ** The sweep as a whole (C6, C7, C9, C10) *)

(** C6.  The sweep completes, and the vapour fraction stored for each
    sample [x] is [x * P_heptane / P_total], where [P_heptane] is what a
    fresh call of [antoine_eq] returns at the temperature the solver
    returned for [x]; the temperatures stored are the solver's own. *)
Theorem vapour_fraction_recomputed
  (fsolve : (float64 -> float64) -> float64 -> float64) :
  exists st, main fsolve = Ok st /\
    T_vals st = map (bubble_point_temp fsolve heptane octane P_total) x_vals /\
    Forall2
      (fun x y => exists P_heptane,
         antoine_eq (NpFloat (bubble_point_temp fsolve heptane octane P_total x))
                    (cA heptane) (cB heptane) (cC heptane) = Ok P_heptane /\
         y = div (mul x (to_np P_heptane)) (Fin P_total))
      x_vals (y_vals st).
Proof.
  eexists. split; [apply main_ok |]. cbn [T_vals y_vals].
  split; [reflexivity |].
  induction x_vals as [| x xs IH]; cbn [map]; constructor; [| exact IH].
  eexists. split; reflexivity.
Qed.

(** C7.  The grid has 21 entries [i/20], begins with exactly 0 and ends
    with exactly 1, is strictly ascending and free of duplicates; the
    table has one row per sample and its [x] column is the grid, in the
    same order. *)
Theorem grid_and_table_order :
  x_vals = map (fun i : nat => Fin (INR i / 20)) (seq 0 21) /\
  List.length x_vals = 21%nat /\
  hd NaN x_vals = Fin 0 /\
  last x_vals NaN = Fin 1 /\
  (exists rs, x_vals = map Fin rs /\ StronglySorted Rlt rs) /\
  NoDup x_vals /\
  forall fsolve, exists st, main fsolve = Ok st /\
    List.length (table_data st) = 21%nat /\
    map (fun r : row => fst (fst r)) (table_data st) = x_vals.
Proof.
  split; [apply x_vals_grid |]. split; [apply x_vals_length |].
  split; [apply x_vals_first |]. split; [apply x_vals_last |].
  split.
  { exists (linspace 0 1 21). split; [reflexivity |].
    rewrite linspace_grid. apply grid_sorted. }
  split.
  { unfold x_vals. apply Fin_map_NoDup, sorted_NoDup.
    rewrite linspace_grid. apply grid_sorted. }
  intros fsolve. eexists. split; [apply main_ok |]. cbn [table_data].
  split; [rewrite length_map; apply x_vals_length |].
  rewrite map_map. cbn [row_of fst]. apply round_x_vals.
Qed.

(** C9.  Whatever [fsolve] returns is taken as the bubble point, with no
    test of the residual and nothing raised, and the sweep completes
    with 21 temperatures, 21 vapour fractions and 21 rows.  Nothing
    validates [y]: with a root-finder that hands back its initial guess
    the sweep still completes, and stores a vapour fraction above 1. *)
Theorem sweep_accepts_solver_output
  (fsolve : (float64 -> float64) -> float64 -> float64) :
  (forall x, bubble_point_temp fsolve heptane octane P_total x
             = fsolve (func heptane octane P_total x) (Fin 100)) /\
  (exists st, main fsolve = Ok st /\
     T_vals st = map (fun x => fsolve (func heptane octane P_total x) (Fin 100))
                     x_vals /\
     List.length (T_vals st) = 21%nat /\
     List.length (y_vals st) = 21%nat /\
     List.length (table_data st) = 21%nat) /\
  (exists st y, main stalled_fsolve = Ok st /\ In (Fin y) (y_vals st) /\ 1 < y).
Proof.
  split; [intros x; reflexivity |]. split.
  - eexists. split; [apply main_ok |]. cbn [T_vals y_vals table_data].
    rewrite !length_map, x_vals_length. repeat split.
  - eexists. exists (1 * Psat heptane 100 / 760).
    split; [apply main_ok |]. cbn [y_vals]. split.
    + apply in_map_iff. exists (Fin 1). split; [| apply one_in_x_vals].
      unfold y_of, bubble_point_temp, stalled_fsolve, T_guess.
      rewrite (antoine_np_Fin heptane 100 heptane_B_pos).
      rewrite Psat_np_physical by (simpl; lra).
      unfold P_total. cbn [mul div].
      destruct (Req_dec_T 760 0) as [E | _]; [lra | reflexivity].
    + pose proof heptane_above_760_at_guess. lra.
Qed.



(** * Further properties of the script *)

(** ** The saturation pressure as a function of temperature *)










(** ** The pressure balance *)

Lemma physical_root_bracket (x t : R) :
  0 <= x <= 1 -> -216 < t -> residual x t = 0 ->
  boiling_point heptane 760 <= t <= boiling_point octane 760.
Proof.
  intros Hx Ht Hroot.
  pose proof heptane_boiling_point as [Hh1 Hh2].
  pose proof octane_boiling_point as [Ho1 Ho2].
  pose proof heptane_B_pos as HBh. pose proof octane_B_pos as HBo.
  pose proof heptane_A_above as HAh. pose proof octane_A_above as HAo.
  unfold residual, P_total in Hroot.
  destruct (Rlt_dec t (boiling_point heptane 760)) as [H3 | H3].
  { pose proof (Psat_np_below heptane t HBh HAh ltac:(simpl; lra) H3) as Ph.
    pose proof (Psat_np_below octane t HBo HAo ltac:(simpl; lra) ltac:(lra)) as Po.
    rewrite Psat_np_physical in Ph, Po by (simpl; lra).
    pose proof (convex_below x _ _ 760 Hx Ph Po). lra. }
  destruct (Rlt_dec (boiling_point octane 760) t) as [H4 | H4].
  { pose proof (Psat_above heptane t HBh HAh ltac:(lra)) as Ph.
    pose proof (Psat_above octane t HBo HAo H4) as Po.
    pose proof (convex_above x _ _ 760 Hx Ph Po). lra. }
  lra.
Qed.

(** X4.  For every liquid fraction in [0, 1] the residual has exactly one
    zero among the temperatures above -216 (right of both poles), and
    that bubble point lies between the boiling points of heptane and of
    octane at 760 mmHg. *)
Theorem bubble_point_exists_unique (x : R) :
  0 <= x <= 1 ->
  exists t,
    -216 < t /\
    func heptane octane P_total (Fin x) (Fin t) = Fin 0 /\
    boiling_point heptane 760 <= t <= boiling_point octane 760 /\
    forall t', -216 < t' ->
      func heptane octane P_total (Fin x) (Fin t') = Fin 0 -> t' = t.
Proof.
  intros Hx.
  destruct (residual_has_root x Hx) as [t [Ht Er]].
  assert (Hphys : -216 < t) by lra.
  exists t. split; [exact Hphys |]. split.
  - rewrite func_Fin, residual_np_physical by exact Hphys. now rewrite Er.
  - split; [apply (physical_root_bracket x t Hx Hphys Er) |].
    intros t' Ht' E'.
    rewrite func_Fin, residual_np_physical in E' by exact Ht'.
    injection E' as E'.
    apply (residual_root_unique x t' t Hx Ht' Hphys E' Er).
Qed.

Lemma bubble_point_exists_unique_witness :
  exists t,
    -216 < t /\
    func heptane octane P_total (Fin (3 / 10)) (Fin t) = Fin 0 /\
    boiling_point heptane 760 <= t <= boiling_point octane 760 /\
    forall t', -216 < t' ->
      func heptane octane P_total (Fin (3 / 10)) (Fin t') = Fin 0 -> t' = t.
Proof. apply (bubble_point_exists_unique (3 / 10)). lra. Defined.

Lemma sample_zero_unique_real (x : R) (T T' : float64) :
  x = 0 \/ 1 / 20 <= x <= 1 ->
  func heptane octane P_total (Fin x) T = Fin 0 ->
  func heptane octane P_total (Fin x) T' = Fin 0 ->
  T = T'.
Proof.
  intros Hx E E'.
  assert (Hx01 : 0 <= x <= 1) by (destruct Hx; lra).
  destruct (root_is_finite x T Hx01 E) as [t [-> Er]].
  destruct (root_is_finite x T' Hx01 E') as [t' [-> Er']].
  pose proof (sample_root_bracket x t Hx Er) as Hb.
  pose proof (sample_root_bracket x t' Hx Er') as Hb'.
  pose proof heptane_boiling_point.
  rewrite residual_np_physical in Er, Er' by lra.
  f_equal. apply (residual_root_unique x t t' Hx01); lra.
Qed.

(** X5.  At a sample of the sweep the residual has a single zero among all
    values a NumPy scalar can take: the poles, the branches left of
    them, [inf], [-inf] and [nan] hold no second one for the
    root-finder to land on. *)
Theorem sample_zero_unique (x T T' : float64) :
  In x x_vals ->
  func heptane octane P_total x T = Fin 0 ->
  func heptane octane P_total x T' = Fin 0 ->
  T = T'.
Proof.
  intros Hx. destruct (sample_real x Hx) as [r [-> Hr]].
  apply sample_zero_unique_real. exact Hr.
Qed.

Lemma sample_zero_unique_witness :
  bubble_point_temp ideal_fsolve heptane octane P_total (Fin 1)
  = Fin (boiling_point heptane 760).
Proof.
  apply (sample_zero_unique (Fin 1)).
  - apply one_in_x_vals.
  - apply (ideal_fsolve_converged 1). lra.
  - rewrite func_Fin, residual_np_physical
      by (pose proof heptane_boiling_point; lra).
    unfold residual.
    rewrite (Psat_boiling_point heptane 760 ltac:(lra) heptane_B_pos heptane_A_above).
    f_equal. unfold P_total. lra.
Defined.

Lemma add_comm (a b : float64) : add a b = add b a.
Proof.
  destruct a, b; cbn [add]; try reflexivity. f_equal. apply Rplus_comm.
Qed.

(** X6.  Raoult's sum does not care which component is called the first:
    exchanging the two sets of constants and replacing [x] by [1 - x]
    leaves the residual as it is, at every temperature. *)
Theorem func_swap_components (c1 c2 : constants) (P x : R) (T : float64) :
  func c1 c2 P (Fin x) T = func c2 c1 P (Fin (1 - x)) T.
Proof.
  unfold func.
  set (a := antoine_np T (cA c1) (cB c1) (cC c1)).
  set (b := antoine_np T (cA c2) (cB c2) (cC c2)).
  replace (sub (Fin 1) (Fin (1 - x))) with (Fin x)
    by (unfold sub; cbn [neg add]; f_equal; ring).
  replace (sub (Fin 1) (Fin x)) with (Fin (1 - x))
    by (unfold sub; cbn [neg add]; reflexivity).
  now rewrite (add_comm (mul (Fin x) a)).
Qed.

(** ** The loop and its table *)

(** X7.  Samples are solved independently of one another: sweeping a grid in
    two parts and joining the results gives what one sweep over the
    whole grid gives. *)
Theorem sweep_app
  (fsolve : (float64 -> float64) -> float64 -> float64)
  (c1 c2 : constants) (P : R) (xs ys : list float64) :
  exists s1 s2,
    sweep fsolve c1 c2 P xs = Ok s1 /\
    sweep fsolve c1 c2 P ys = Ok s2 /\
    sweep fsolve c1 c2 P (xs ++ ys)
    = Ok (State (T_vals s1 ++ T_vals s2)
                (y_vals s1 ++ y_vals s2)
                (table_data s1 ++ table_data s2)).
Proof.
  eexists. eexists. split; [apply sweep_ok |]. split; [apply sweep_ok |].
  rewrite sweep_ok. cbn [T_vals y_vals table_data].
  now rewrite !map_app.
Qed.





(** X9.  The columns of the display are as long as the table, and putting
    them side by side again gives the table back, row by row. *)
Theorem table_columns_round_trip (table : list row) :
  exists xs ys Ts,
    table_columns table
    = [ ("x (Liquid Heptane)"%string, xs);
        ("y (Vapor Heptane)"%string, ys);
        ("T (°C)"%string, Ts) ] /\
    List.length xs = List.length table /\
    List.length ys = List.length table /\
    List.length Ts = List.length table /\
    combine (combine xs ys) Ts = table.
Proof.
  eexists. eexists. eexists. split; [reflexivity |].
  rewrite !length_map. repeat split.
  induction table as [| [[x y] T] table IH]; cbn [map combine fst snd].
  - reflexivity.
  - now rewrite IH.
Qed.


(** ** The curves of the two diagrams, when the root-finder converges *)

Lemma seq_map_sorted {A : Type} (R : A -> A -> Prop) (f : nat -> A) (n a : nat) :
  (forall i j, (a <= i)%nat -> (i < j)%nat -> (j < a + n)%nat -> R (f i) (f j)) ->
  StronglySorted R (map f (seq a n)).
Proof.
  revert a. induction n as [| n IH]; intros a Hf; cbn [seq map].
  - constructor.
  - constructor.
    + apply IH. intros i j Hi Hij Hj. apply Hf; lia.
    + apply Forall_forall. intros r Hr.
      apply in_map_iff in Hr as [j [<- Hj]]. apply in_seq in Hj.
      apply Hf; lia.
Qed.

Lemma grid_lt (i j : nat) : (i < j)%nat -> INR i / 20 < INR j / 20.
Proof.
  intros Hij. assert (INR i < INR j) by (apply lt_INR; lia). lra.
Qed.

(** A strict form of [near_roots_antitone]. *)
Lemma near_roots_strict (x x' t t' : R) :
  0 <= x -> x + 1 / 20 <= x' -> x' <= 1 ->
  97 < t < 120 -> -216 < t' ->
  -1 <= residual x t -> residual x' t' <= 1 -> t' < t.
Proof.
  intros Hx Hxx Hx' Ht Ht' Hr Hr'.
  destruct (Rlt_dec t' t) as [Hlt | Hge]; [exact Hlt | exfalso].
  pose proof (volatility_gap t ltac:(lra)) as G.
  assert (Hinc : residual x' t <= residual x' t').
  { destruct (Req_dec t t') as [-> | Hne]; [lra |].
    left. apply residual_increasing; lra. }
  assert (Hstep : residual x t + (x' - x) * (Psat heptane t - Psat octane t)
                  = residual x' t) by (unfold residual; ring).
  assert ((1 / 20) * 50 <= (x' - x) * (Psat heptane t - Psat octane t))
    by (apply Rmult_le_compat; lra).
  lra.
Qed.



Section ConvergedCurves.

Variable fsolve : (float64 -> float64) -> float64 -> float64.
Hypothesis solved : forall x, In x x_vals -> converged fsolve x.



End ConvergedCurves.

Lemma decreasing_NoDup (l : list R) :
  StronglySorted (fun u v => v < u) l -> NoDup l.
Proof.
  induction 1 as [| a l Hs IH Hall]; constructor; [| exact IH].
  intros Hin. rewrite Forall_forall in Hall. specialize (Hall a Hin). lra.
Qed.

(** X11.  When the residual at each returned temperature is within 1e-6 mmHg
    of zero, the bubble point falls strictly from one sample to the
    next: the liquid curve of the T-x-y diagram has no flat step and no
    temperature occurs twice. *)
Theorem bubble_point_strictly_decreasing
  (fsolve : (float64 -> float64) -> float64 -> float64) :
  (forall x, In x x_vals -> within_tolerance fsolve x) ->
  exists st ts, main fsolve = Ok st /\
    T_vals st = map Fin ts /\
    StronglySorted (fun u v => v < u) ts /\
    NoDup (T_vals st).
Proof.
  intros near.
  assert (Hs : StronglySorted (fun u v => v < u)
                 (map (fun x => to_real (bubble_point_temp fsolve heptane octane
                                           P_total x)) x_vals)).
  { rewrite x_vals_grid, map_map. apply seq_map_sorted. intros i j _ Hij Hj.
    pose proof (grid_in_x_vals i ltac:(lia)) as Hi'.
    pose proof (grid_in_x_vals j ltac:(lia)) as Hj'.
    destruct (within_tolerance_sample fsolve _ (in_x_vals_real _ Hi') (near _ Hi'))
      as [ti [Ei [Bi Zi]]].
    destruct (within_tolerance_sample fsolve _ (in_x_vals_real _ Hj') (near _ Hj'))
      as [tj [Ej [Bj Zj]]].
    rewrite Ei, Ej. cbn [to_real].
    pose proof (samples_spaced _ _ Hi' Hj' (grid_lt i j Hij)) as Hsp.
    unfold tolerance in Zi, Zj.
    apply Rabs_le_between in Zi. apply Rabs_le_between in Zj.
    destruct (in_x_vals_real _ Hi'), (in_x_vals_real _ Hj');
      apply (near_roots_strict (INR i / 20) (INR j / 20) ti tj); lra. }
  eexists. eexists. split; [apply main_ok |]. cbn [T_vals].
  rewrite (near_T_vals_finite fsolve near).
  split; [reflexivity |]. split; [exact Hs |].
  apply Fin_map_NoDup, decreasing_NoDup, Hs.
Qed.

Lemma bubble_point_strictly_decreasing_witness :
  exists st ts, main ideal_fsolve = Ok st /\
    T_vals st = map Fin ts /\
    StronglySorted (fun u v => v < u) ts /\
    NoDup (T_vals st).
Proof.
  apply (bubble_point_strictly_decreasing ideal_fsolve).
  intros x Hx.
  apply converged_within_tolerance, ideal_fsolve_converged_samples, Hx.
Defined.












